(** * Qualification and governance pipeline of the AI SDR backend

    A shallow embedding of [backend/app/agents/sdr_agent.py],
    [backend/app/agents/prompt_templates.py] and
    [backend/app/services/llm_service.py], followed by the properties
    proved about it.

    Conventions of the embedding.
    - A Python [str] is a [list ascii].  The embedding is exact on ASCII
      text: case mapping ([str.upper], [str.lower], [re.IGNORECASE]),
      [str.isspace]/[\s] and [\d] are the ASCII restrictions of Python's
      Unicode tables, and characters above 127 are inert.
    - A [dict] is a [gmap] with [string] keys.
    - [re.search] is a backtracking matcher over the constructs the three
      patterns of the source use.
    - The clock, the HTTP endpoint and the environment are explicit inputs. *)

From Stdlib Require Import ZArith NArith QArith List Ascii String Bool Lia.
From stdpp Require Import base option list gmap strings pretty.
Import ListNotations.

Local Open Scope Z_scope.

(** ** Python strings *)

Module PyStr.

Abbreviation str := (list ascii).

(** A string literal of the source. *)
Definition lit (s : string) : str := list_ascii_of_string s.

Definition code (c : ascii) : N := N_of_ascii c.

Definition in_range (lo hi : N) (c : ascii) : bool :=
  ((lo <=? code c) && (code c <=? hi))%N.

(** [str.isspace] on one character, which is also the class [\s] of [re]
    for [str] patterns: TAB..CR, FS..US and the space. *)
Definition is_space (c : ascii) : bool :=
  in_range 9 13 c || in_range 28 32 c.

(** The class [\d]. *)
Definition is_digit (c : ascii) : bool := in_range 48 57 c.

Definition upper_char (c : ascii) : ascii :=
  if in_range 97 122 c then ascii_of_N (code c - 32) else c.

Definition lower_char (c : ascii) : ascii :=
  if in_range 65 90 c then ascii_of_N (code c + 32) else c.

(** [s.upper()] and [s.lower()]. *)
Definition upper (s : str) : str := map upper_char s.
Definition lower (s : str) : str := map lower_char s.

(** [s.startswith(p)]. *)
Fixpoint startswith (p s : str) : bool :=
  match p, s with
  | [], _ => true
  | _ :: _, [] => false
  | a :: p', b :: s' => Ascii.eqb a b && startswith p' s'
  end.

(** [p in s] for two strings. *)
Fixpoint isin (p s : str) : bool :=
  startswith p s ||
  match s with
  | [] => false
  | _ :: s' => isin p s'
  end.

(** [a == b] for two strings. *)
Fixpoint str_eqb (a b : str) : bool :=
  match a, b with
  | [], [] => true
  | x :: a', y :: b' => Ascii.eqb x y && str_eqb a' b'
  | _, _ => false
  end.

Fixpoint drop_while (p : ascii -> bool) (s : str) : str :=
  match s with
  | [] => []
  | c :: s' => if p c then drop_while p s' else s
  end.


(** [s.strip()] with no argument. *)
Definition lstrip (s : str) : str := drop_while is_space s.
Definition rstrip (s : str) : str := rev (drop_while is_space (rev s)).
Definition strip (s : str) : str := rstrip (lstrip s).

Definition digit_val (c : ascii) : Z := Z.of_N (code c) - 48.

(** [int(ds)] for a non-empty string of decimal digits, which is all the
    source passes to it.  Python integers are unbounded; the interpreter's
    configurable cap on the number of digits [int] accepts is outside the
    embedding. *)
Definition int_of_digits (ds : str) : Z :=
  fold_left (fun acc c => 10 * acc + digit_val c) ds 0.

(** [str(n)] for an integer. *)
Definition str_of_int (n : Z) : str := lit (pretty n).

Definition nl : ascii := ascii_of_N 10.

End PyStr.

Import PyStr.

(** ** The fragment of [re] used by the source *)

Module Re.

(** Quantifiers occur in the source only on single-character classes, so
    the syntax attaches them to a class. *)
Inductive regex : Type :=
| Cls (p : ascii -> bool)        (* one character of a class *)
| Cat (r1 r2 : regex)            (* r1 r2 *)
| Alt (r1 r2 : regex)            (* r1|r2 *)
| StarG (p : ascii -> bool)      (* p*   greedy *)
| PlusG (p : ascii -> bool)      (* p+   greedy *)
| PlusL (p : ascii -> bool)      (* p+?  lazy *)
| Eos                            (* $ without re.MULTILINE *)
| Grp (r : regex).               (* ( r ), the group numbered 1 *)

(** A match object, reduced to what the source reads from it. *)
Record match_obj : Type := MatchObj { group1 : option str }.

Section Backtrack.
Variable p : ascii -> bool.
Variable k : str -> option match_obj.

  (** Longest run first, giving characters back one at a time. *)
Fixpoint greedy_star (s : str) : option match_obj :=
    match s with
    | c :: s' =>
        if p c then
          match greedy_star s' with
          | Some m => Some m
          | None => k s
          end
        else k s
    | [] => k s
    end.

  (** Shortest run first, taking one more character at a time. *)
Fixpoint lazy_star (s : str) : option match_obj :=
    match k s with
    | Some m => Some m
    | None =>
        match s with
        | c :: s' => if p c then lazy_star s' else None
        | [] => None
        end
    end.
End Backtrack.

(** [rmatch r s g k]: match [r] at the head of [s] with group 1 currently
    [g], then continue with [k] on what is left; [None] makes the matcher
    backtrack into the last choice point. *)
Fixpoint rmatch (r : regex) (s : str) (g : option str)
    (k : str -> option str -> option match_obj) : option match_obj :=
  match r with
  | Cls p =>
      match s with
      | c :: s' => if p c then k s' g else None
      | [] => None
      end
  | Cat r1 r2 => rmatch r1 s g (fun s' g' => rmatch r2 s' g' k)
  | Alt r1 r2 =>
      match rmatch r1 s g k with
      | Some m => Some m
      | None => rmatch r2 s g k
      end
  | StarG p => greedy_star p (fun s' => k s' g) s
  | PlusG p =>
      match s with
      | c :: s' => if p c then greedy_star p (fun s'' => k s'' g) s' else None
      | [] => None
      end
  | PlusL p =>
      match s with
      | c :: s' => if p c then lazy_star p (fun s'' => k s'' g) s' else None
      | [] => None
      end
  | Eos =>
      match s with
      | [] => k s g
      | [c] => if Ascii.eqb c nl then k s g else None
      | _ => None
      end
  | Grp r' =>
      rmatch r' s g
        (fun s' _ => k s' (Some (take (length s - length s') s)))
  end.

(** [re.match]: anchored at the head of [s]. *)
Definition re_match (r : regex) (s : str) : option match_obj :=
  rmatch r s None (fun _ g => Some (MatchObj g)).

(** [re.search]: the leftmost position where a match starts, the end of
    the text included. *)
Fixpoint re_search (r : regex) (s : str) : option match_obj :=
  match re_match r s with
  | Some m => Some m
  | None =>
      match s with
      | [] => None
      | _ :: s' => re_search r s'
      end
  end.

Definition chr (c : ascii) : regex := Cls (Ascii.eqb c).

(** The same character under [re.IGNORECASE]. *)
Definition chr_i (c : ascii) : regex :=
  Cls (fun x => Ascii.eqb (lower_char x) (lower_char c)).

Definition one_of (cs : str) : regex :=
  Cls (fun x => existsb (Ascii.eqb x) cs).

Definition any : ascii -> bool := fun _ => true.

(** A literal followed by [r]. *)
Definition lits (cs : str) (r : regex) : regex :=
  fold_right (fun c acc => Cat (chr c) acc) r cs.

Definition lits_i (cs : str) (r : regex) : regex :=
  fold_right (fun c acc => Cat (chr_i c) acc) r cs.

(** The empty pattern, as [p*] over the empty class. *)
Definition eps : regex := StarG (fun _ => false).

End Re.

Import Re.

(** ** [prompt_templates.py] *)

Module PromptTemplates.

(** A template is the text between replacement fields and the fields. *)
Inductive segment : Type :=
| Text (s : str)
| Field (name : string).

Abbreviation template := (list segment).

(** [tmpl.format] applied to keyword arguments; [None] stands for the [KeyError] of a field
    without argument. *)
Fixpoint format (tmpl : template) (kwargs : gmap string str) : option str :=
  match tmpl with
  | [] => Some []
  | Text s :: rest => (fun r => s ++ r) <$> format rest kwargs
  | Field name :: rest =>
      v ← kwargs !! name; (fun r => v ++ r) <$> format rest kwargs
  end.

Definition QUALIFICATION_PROMPT_A : template :=
  [ Text (lit "You are an AI Sales Development Representative evaluating a lead.

Lead Information:
- Company: ");
    Field "company_name";
    Text (lit "
- Industry: ");
    Field "industry";
    Text (lit "
- Company Size: ");
    Field "company_size";
    Text (lit "
- Contact: ");
    Field "contact_name";
    Text (lit " (");
    Field "contact_email";
    Text (lit ")

Your task:
1. Evaluate if this lead is qualified based on:
   - Company size (prefer 50-500 or 500-2000 employees)
   - Industry fit (SaaS, Finance, Healthcare are good fits)
   - Contact information completeness
2. Assign a qualification score (0-100)
3. Provide a brief recommendation (QUALIFIED or DISQUALIFIED)

Response format:
Score: [0-100]
Recommendation: [QUALIFIED/DISQUALIFIED]
Reasoning: [Brief explanation]
") ].

Definition QUALIFICATION_PROMPT_B : template :=
  [ Text (lit "As an AI SDR, assess this sales lead for qualification.

Lead Details:
Company: ");
    Field "company_name";
    Text (lit "
Industry: ");
    Field "industry";
    Text (lit "
Size: ");
    Field "company_size";
    Text (lit "
Contact: ");
    Field "contact_name";
    Text (lit " <");
    Field "contact_email";
    Text (lit ">

Qualification Criteria:
✓ Company size 50+ employees (higher priority for 50-2000)
✓ Industry alignment (SaaS, Tech, Finance, Healthcare)
✓ Complete contact information
✓ No obvious disqualifiers

Provide:
1. Qualification score (0-100)
2. Clear QUALIFIED or DISQUALIFIED decision
3. Key reasoning points

Format:
Score: XX
Decision: QUALIFIED/DISQUALIFIED
Reasoning: [explanation]
") ].

Definition EMAIL_PROMPT_A : template :=
  [ Text (lit "Generate a professional, personalized sales outreach email.

Lead Context:
- Company: ");
    Field "company_name";
    Text (lit "
- Industry: ");
    Field "industry";
    Text (lit "
- Contact: ");
    Field "contact_name";
    Text (lit "
- Qualification Score: ");
    Field "score";
    Text (lit "

Requirements:
- Professional but friendly tone
- Personalize based on industry
- Clear value proposition
- Specific call-to-action
- Keep under 150 words
- Include subject line

Generate the email now:
") ].

Definition EMAIL_PROMPT_B : template :=
  [ Text (lit "Create a compelling sales email for this qualified lead.

Company: ");
    Field "company_name";
    Text (lit "
Industry: ");
    Field "industry";
    Text (lit "
Contact Person: ");
    Field "contact_name";
    Text (lit "
Fit Score: ");
    Field "score";
    Text (lit "/100

Email Guidelines:
1. Catchy subject line
2. Personal greeting
3. Relevant industry insight
4. Clear value proposition  
5. Soft call-to-action (request for brief call)
6. Professional close

Write the complete email:
") ].

Definition get_qualification_prompt (variant : str) : template :=
  if str_eqb variant (lit "B") then QUALIFICATION_PROMPT_B
  else QUALIFICATION_PROMPT_A.

Definition get_email_prompt (variant : str) : template :=
  if str_eqb variant (lit "B") then EMAIL_PROMPT_B
  else EMAIL_PROMPT_A.

End PromptTemplates.

Import PromptTemplates.

(** ** [llm_service.py] *)

Module LLMService.

(** The body of an HTTP response, as far as [generate] reads it. *)
Inductive body : Type :=
| Completion (content : str)  (* result["choices"][0]["message"]["content"] *)
| NoChoices                   (* no "choices" key, or an empty list *)
| Malformed.                  (* reading it raises *)

(** What one [requests.post] does. *)
Inductive outcome : Type :=
| Response (status_code : Z) (b : body)
| RaisesTimeout
| RaisesOther.

(** The effects of [generate], in the order they happen. *)
Inductive event : Type :=
| Post (prompt : str) (max_tokens : Z) (temperature : Q)
| Sleep (seconds : Z).

Record service : Type := Service {
  api_token : str;
  model : str;
  max_retries : Z;
  timeout : Z;
  enabled : bool
}.

(** [LLMService.__init__]; the arguments are the environment variables
    HF_API_TOKEN and HF_MODEL ([None] when unset) and the integers read
    from AGENT_MAX_RETRIES and AGENT_TIMEOUT. *)
Definition init (HF_API_TOKEN HF_MODEL : option str)
    (AGENT_MAX_RETRIES AGENT_TIMEOUT : Z) : service :=
  let token := default (lit "") HF_API_TOKEN in
  {| api_token := token;
     model := default (lit "meta-llama/Llama-3.1-8B-Instruct") HF_MODEL;
     max_retries := AGENT_MAX_RETRIES;
     timeout := AGENT_TIMEOUT;
     enabled :=
       if str_eqb token [] || str_eqb token (lit "your_huggingface_token_here")
       then false else true |}.

Definition QUALIFICATION_FALLBACK : str :=
  lit "Based on the provided information:
- Company size and industry are good fit
- Contact information is complete
- Engagement signals are positive
Qualification Score: 75/100
Recommendation: QUALIFIED - Proceed with outreach".

Definition EMAIL_FALLBACK : str :=
  lit "Subject: Quick question about [topic]

Hi [Name],

I noticed [company] is [relevant observation]. We've helped similar companies in [industry] achieve [specific benefit].

Would you be open to a brief call next week to explore if this could be valuable for your team?

Best regards".

Definition GENERIC_FALLBACK : str :=
  lit "Analysis complete. Proceeding with standard workflow.".

Definition _fallback_response (prompt : str) : str :=
  if isin (lit "qualify") (lower prompt) || isin (lit "score") (lower prompt)
  then QUALIFICATION_FALLBACK
  else if isin (lit "email") (lower prompt) || isin (lit "message") (lower prompt)
  then EMAIL_FALLBACK
  else GENERIC_FALLBACK.

Section Generate.
Variable self : service.
  (** [net n] is what the [n]-th request of this call does. *)
Variable net : nat -> outcome.
Variables (prompt : str) (max_tokens : Z) (temperature : Q).

  (** [if attempt < self.max_retries - 1: time.sleep(2 ** attempt)]. *)
Definition backoff (attempt : nat) : list event :=
    if Z.of_nat attempt <? max_retries self - 1
    then [Sleep (2 ^ Z.of_nat attempt)] else [].

  (** The loop [for attempt in range(self.max_retries)] with [n]
      iterations left, and the fallback after it. *)
Fixpoint attempts (n attempt : nat) : list event * str :=
    match n with
    | O => ([], _fallback_response prompt)
    | S n' =>
        let post := Post prompt max_tokens temperature in
        let next (evs : list event) :=
          let '(tr, r) := attempts n' (S attempt) in
          (post :: evs ++ tr, r) in
        match net attempt with
        | Response status b =>
            if status =? 200 then
              match b with
              | Completion text => ([post], strip text)
              | NoChoices => next []
              | Malformed => next (backoff attempt)
              end
            else if status =? 503 then next [Sleep 10]
            else next (backoff attempt)
        | RaisesTimeout => next (backoff attempt)
        | RaisesOther => next (backoff attempt)
        end
    end.

Definition generate : list event * str :=
    if negb (enabled self) then ([], _fallback_response prompt)
    else attempts (Z.to_nat (max_retries self)) 0.
End Generate.

(** The requests in a trace. *)
Definition is_post (e : event) : bool :=
  match e with
  | Post _ _ _ => true
  | Sleep _ => false
  end.

End LLMService.

Import LLMService.

(** ** [sdr_agent.py] *)

Module SDRAgent.

(** One entry of the governance issue list, a dict with these three keys. *)
Record issue : Type := Issue {
  rule : str;
  severity : str;
  message : str
}.

(** The values stored in result dicts. *)
Inductive pyval : Type :=
| PyNone
| PyBool (b : bool)
| PyInt (n : Z)
| PyStr (s : str)
| PyIssues (l : list issue).

(** A lead is a row of the [leads] table turned into a dict; the columns
    the agent reads are declared TEXT, so a value is a string or NULL,
    here [Some s] or [None]. *)
Abbreviation lead := (gmap string (option str)).

Abbreviation result := (gmap string pyval).

(** [d.get(k, dflt)]; [d.get(k)] is [get d k None]. *)
Definition get (d : lead) (k : string) (dflt : option str) : option str :=
  default dflt (d !! k).

(** Truth value of a lead field: [None] and the empty string are false. *)
Definition truthy (v : option str) : bool :=
  match v with
  | Some (_ :: _) => true
  | _ => false
  end.

(** [str(v)], as replacement fields and f-strings apply it. *)
Definition str_of (v : option str) : str :=
  match v with
  | Some s => s
  | None => lit "None"
  end.

(** [v in choices] for a lead field and a list of strings. *)
Definition among (v : option str) (choices : list str) : bool :=
  match v with
  | Some s => existsb (str_eqb s) choices
  | None => false
  end.

Record agent : Type := Agent {
  variant : str;
  (** [self.llm.generate(prompt, max_tokens=.., temperature=..)] *)
  llm : str -> Z -> Q -> option str
}.

(** [[Ss]core:\s*(\d+)] *)
Definition score_re : regex :=
  Cat (one_of (lit "Ss"))
    (lits (lit "core:") (Cat (StarG is_space) (Grp (PlusG is_digit)))).

(** [[Rr]easoning:\s*(.+?)(?:\n|$)] with [re.DOTALL] *)
Definition reasoning_re : regex :=
  Cat (one_of (lit "Rr"))
    (lits (lit "easoning:")
       (Cat (StarG is_space)
          (Cat (Grp (PlusL any)) (Alt (chr nl) Eos)))).

(** [subject:] with [re.IGNORECASE] *)
Definition subject_re : regex := lits_i (lit "subject:") eps.

(** [m.group(1)]; the group takes part in every match of the two patterns
    it is read from. *)
Definition group (m : match_obj) : str := default [] (group1 m).

Definition clamp (score : Z) : Z := Z.max 0 (Z.min 100 score).

Definition parse_score (response : str) : Z :=
  let score :=
    match re_search score_re response with
    | Some m => int_of_digits (group m)
    | None => 50
    end in
  clamp score.

Definition parse_decision (response : str) (score : Z) : str :=
  if isin (lit "QUALIFIED") (upper response)
     && negb (isin (lit "DISQUALIFIED") (upper response))
  then lit "QUALIFIED"
  else if isin (lit "DISQUALIFIED") (upper response)
  then lit "DISQUALIFIED"
  else if 60 <=? score then lit "QUALIFIED" else lit "DISQUALIFIED".

Definition parse_reasoning (response : str) : str :=
  match re_search reasoning_re response with
  | Some m => strip (group m)
  | None => take 200 response
  end.

Definition _parse_qualification_response (response : str) : Z * str * str :=
  let score := parse_score response in
  let decision := parse_decision response score in
  let reasoning := parse_reasoning response in
  (score, decision, reasoning).

Definition competitors : list str :=
  [lit "salesforce"; lit "hubspot"; lit "outreach"; lit "salesloft"].

Definition competitor_reason (competitor : str) : str :=
  lit "Competitor '" ++ competitor ++ lit "' mentioned".

(** The [for competitor in competitors] loop with its [break]. *)
Fixpoint competitor_scan (cs : list str) (text_to_check : str)
    : bool * option str :=
  match cs with
  | [] => (false, None)
  | competitor :: rest =>
      if isin competitor text_to_check
      then (true, Some (competitor_reason competitor))
      else competitor_scan rest text_to_check
  end.

Definition text_to_check (lead_data : lead) (reasoning : str) : str :=
  lower (str_of (get lead_data "company_name" (Some [])) ++ lit " " ++ reasoning).

Definition missing_data (lead_data : lead) : bool :=
  negb (truthy (get lead_data "industry" None))
  || negb (truthy (get lead_data "company_size" None)).

Definition _check_escalation_rules (lead_data : lead) (decision reasoning : str)
    : bool * option str :=
  let '(escalated, reason) :=
    competitor_scan competitors (text_to_check lead_data reasoning) in
  if missing_data lead_data
  then (true, Some (lit "Missing critical lead data"))
  else (escalated, reason).

Definition pricing_keywords : list str :=
  [lit "price"; lit "pricing"; lit "cost"; lit "$"; lit "dollar";
   lit "payment"; lit "fee"].

Definition pricing_issue : issue :=
  {| rule := lit "no_pricing_discussion";
     severity := lit "critical";
     message := lit "Email discusses pricing without approval" |}.

Definition length_issue : issue :=
  {| rule := lit "max_length";
     severity := lit "warning";
     message := lit "Email exceeds recommended length" |}.

Definition subject_issue : issue :=
  {| rule := lit "missing_subject";
     severity := lit "warning";
     message := lit "Email missing subject line" |}.

Definition is_critical (i : issue) : bool :=
  str_eqb (severity i) (lit "critical").

Definition _check_governance (email_content : str) : bool * list issue :=
  let issues := [] in
  let issues :=
    if existsb (fun keyword => isin keyword (lower email_content))
         pricing_keywords
    then issues ++ [pricing_issue] else issues in
  let issues :=
    if (1000 <? length email_content)%nat
    then issues ++ [length_issue] else issues in
  let issues :=
    match re_search subject_re email_content with
    | None => issues ++ [subject_issue]
    | Some _ => issues
    end in
  let approved := (length (filter (fun i => is_critical i = true) issues) =? 0)%nat in
  (approved, issues).

Section Methods.
Variable self : agent.
  (** [datetime.utcnow().isoformat()] at the time of the call. *)
Variable now : str.

Definition _fallback_qualification (lead_data : lead) : result :=
    let score := 50 in
    let score :=
      if among (get lead_data "company_size" None)
           [lit "50-500"; lit "500-2000"]
      then score + 20 else score in
    let score :=
      if among (get lead_data "industry" None)
           [lit "SaaS"; lit "Finance"; lit "Healthcare"; lit "Technology"]
      then score + 20 else score in
    let score :=
      if truthy (get lead_data "contact_name" None)
         && truthy (get lead_data "contact_email" None)
      then score + 10 else score in
    let decision :=
      if 60 <=? score then lit "QUALIFIED" else lit "DISQUALIFIED" in
    {[ "qualified" := PyBool (str_eqb decision (lit "QUALIFIED"));
       "score" := PyInt score;
       "reasoning" := PyStr (lit "Rule-based qualification (LLM unavailable)");
       "escalated" := PyBool false;
       "variant" := PyStr (variant self);
       "timestamp" := PyStr now ]}.

Definition _fallback_email (lead_data : lead) : str :=
    let company := get lead_data "company_name" (Some (lit "your company")) in
    let name := get lead_data "contact_name" (Some (lit "there")) in
    let industry := get lead_data "industry" (Some (lit "your industry")) in
    lit "Subject: Quick question about "
    ++ str_of company
    ++ lit "'s growth

Hi "
    ++ str_of name
    ++ lit ",

I noticed "
    ++ str_of company
    ++ lit " is making moves in the "
    ++ str_of industry
    ++ lit " space. We've been helping similar companies streamline their sales operations with AI-powered tools.

Would you be open to a brief 15-minute call next week to explore if this could be valuable for your team?

Best regards,
AI SDR Team".

Definition qualification_prompt (lead_data : lead) : option str :=
    format (get_qualification_prompt (variant self))
      {[ "company_name" := str_of (get lead_data "company_name" (Some (lit "Unknown")));
         "industry" := str_of (get lead_data "industry" (Some (lit "Unknown")));
         "company_size" := str_of (get lead_data "company_size" (Some (lit "Unknown")));
         "contact_name" := str_of (get lead_data "contact_name" (Some (lit "Unknown")));
         "contact_email" :=
           str_of (get lead_data "contact_email" (Some (lit "unknown@example.com"))) ]}.

  (** A response is false when it is [None] or the empty string. *)
Definition falsy (response : option str) : bool :=
    match response with
    | Some (_ :: _) => false
    | _ => true
    end.

  (** [None] stands for an exception leaving the method. *)
Definition qualify_lead (lead_data : lead) : option result :=
    prompt ← qualification_prompt lead_data;
    let response := llm self prompt 300 (3 # 10)%Q in
    if falsy response then Some (_fallback_qualification lead_data)
    else
      let '(score, decision, reasoning) :=
        _parse_qualification_response (default [] response) in
      let '(escalated, escalation_reason) :=
        _check_escalation_rules lead_data decision reasoning in
      Some
        {[ "qualified" := PyBool (str_eqb decision (lit "QUALIFIED"));
           "score" := PyInt score;
           "reasoning" := PyStr reasoning;
           "escalated" := PyBool escalated;
           "escalation_reason" := from_option PyStr PyNone escalation_reason;
           "variant" := PyStr (variant self);
           "timestamp" := PyStr now ]}.

Definition email_prompt (lead_data : lead) (qualification_score : Z)
      : option str :=
    format (get_email_prompt (variant self))
      {[ "company_name" := str_of (get lead_data "company_name" (Some (lit "Unknown")));
         "industry" := str_of (get lead_data "industry" (Some (lit "Unknown")));
         "contact_name" := str_of (get lead_data "contact_name" (Some (lit "there")));
         "score" := str_of_int qualification_score ]}.

Definition generate_email (lead_data : lead) (qualification_score : Z)
      : option result :=
    prompt ← email_prompt lead_data qualification_score;
    let email_content := llm self prompt 400 (7 # 10)%Q in
    let email_content :=
      if falsy email_content then _fallback_email lead_data
      else default [] email_content in
    let '(governance_approved, governance_issues) :=
      _check_governance email_content in
    let result : result :=
      {[ "email_content" := PyStr email_content;
         "governance_approved" := PyBool governance_approved;
         "governance_issues" := PyIssues governance_issues;
         "variant" := PyStr (variant self);
         "timestamp" := PyStr now ]} in
    let result :=
      if negb governance_approved
      then <["escalated" := PyBool true]> result else result in
    Some result.
End Methods.

End SDRAgent.

Import SDRAgent.

(** ** Vocabulary of the statements *)

(** [tok] occurs in [s] in some letter case: a stretch of [s] equals [tok]
    once both are put in lower case. *)
Definition contains_any_case (tok s : str) : Prop :=
  exists pre w post, s = pre ++ w ++ post /\ lower w = lower tok.


(** *** The score field *)




(** *** The reasoning field *)





(** *** The parser as the specification words it

    The specification calls both markers case-insensitive.  These two
    definitions follow its words; they are compared with [parse_score] and
    [parse_reasoning] below. *)





(** *** Leads *)

(** The field [k] is missing, NULL or the empty string. *)
Definition absent_or_empty (lead_data : lead) (k : string) : Prop :=
  lead_data !! k = None \/ lead_data !! k = Some None
  \/ lead_data !! k = Some (Some []).

(** The field [k] holds a non-empty string. *)
Definition present (lead_data : lead) (k : string) : Prop :=
  exists c s, lead_data !! k = Some (Some (c :: s)).

(** The company name as the escalation check prints it. *)
Definition company_name_of (lead_data : lead) : str :=
  match lead_data !! "company_name" with
  | Some (Some s) => s
  | Some None => lit "None"
  | None => []
  end.

Definition mid_size (lead_data : lead) : Prop :=
  exists s, lead_data !! "company_size" = Some (Some s)
            /\ In s [lit "50-500"; lit "500-2000"].

Definition preferred_industry (lead_data : lead) : Prop :=
  exists s, lead_data !! "industry" = Some (Some s)
            /\ In s [lit "SaaS"; lit "Finance"; lit "Healthcare"; lit "Technology"].

(** [b] is [points] when [P] holds and nothing otherwise. *)
Definition bonus (P : Prop) (points b : Z) : Prop :=
  (P /\ b = points) \/ (~ P /\ b = 0).

(** The replacement fields of a template. *)
Fixpoint fields (tmpl : template) : list string :=
  match tmpl with
  | [] => []
  | Text _ :: rest => fields rest
  | Field name :: rest => name :: fields rest
  end.

(** *** Sample inputs *)

Definition acme : lead :=
  {[ "company_name" := Some (lit "Acme Salesforce Corp");
     "industry" := Some (lit "SaaS");
     "company_size" := Some (lit "50-500") ]}.

Definition jane : lead :=
  {[ "company_size" := Some (lit "50-500");
     "industry" := Some (lit "SaaS");
     "contact_name" := Some (lit "Jane");
     "contact_email" := Some (lit "j@x.com") ]}.


(** An oracle that answers [text] whatever it is asked. *)
Definition stub (text : option str) : str -> Z -> Q -> option str :=
  fun _ _ _ => text.


(** ** [llm_service.py] and [sdr_agent.py]: status and wiring *)

Module ServiceStatus.

(** [LLMService.health_check]. *)
Definition health_check (self : service) : gmap string pyval :=
  {[ "enabled" := PyBool (enabled self);
     "model" := PyStr (model self);
     "api_configured" :=
       PyBool
         (if str_eqb (api_token self) [] then false
          else negb (str_eqb (api_token self)
                       (lit "your_huggingface_token_here")));
     "status" :=
       PyStr (if enabled self then lit "ready" else lit "disabled") ]}.

(** [SDRAgent(variant)]: [self.llm] is the service [llm_service], here
    over an endpoint that answers each call as [net] says. *)
Definition new_agent (llm_service : service) (net : nat -> outcome)
    (variant : str) : agent :=
  {| variant := variant;
     llm := fun prompt max_tokens temperature =>
              Some (generate llm_service net prompt max_tokens temperature).2 |}.

(** The number of requests in a trace. *)
Definition requests (trace : list event) : nat :=
  length (List.filter is_post trace).

(** The seconds slept in a trace. *)
Definition slept (trace : list event) : Z :=
  fold_right
    (fun e acc =>
       match e with
       | Sleep seconds => seconds + acc
       | Post _ _ _ => acc
       end) 0 trace.

(** The service cannot get a completion: it is disabled, or no request is
    answered with one. *)
Definition offline (llm_service : service) (net : nat -> outcome) : Prop :=
  enabled llm_service = false
  \/ forall i text, net i <> Response 200 (Completion text).

End ServiceStatus.

Import ServiceStatus.

(** ** [validation.py] *)

Module Validation.

Definition is_alpha (c : ascii) : bool := in_range 65 90 c || in_range 97 122 c.

(** [[a-zA-Z0-9._%+-]] *)
Definition local_char (c : ascii) : bool :=
  is_alpha c || is_digit c || existsb (Ascii.eqb c) (lit "._%+-").

(** [[a-zA-Z0-9.-]] *)
Definition domain_char (c : ascii) : bool :=
  is_alpha c || is_digit c || existsb (Ascii.eqb c) (lit ".-").

(** [^[a-zA-Z0-9._%+-]+@[a-zA-Z0-9.-]+\.[a-zA-Z]{2,}$]; the leading [^]
    holds where [re.match] starts. *)
Definition email_re : regex :=
  Cat (PlusG local_char)
    (Cat (chr "@")
       (Cat (PlusG domain_char)
          (Cat (chr ".")
             (Cat (Cls is_alpha)
                (Cat (Cls is_alpha) (Cat (StarG is_alpha) Eos)))))).

(** [ValidationService.validate_email]. *)
Definition validate_email (email : str) : bool :=
  match re_match email_re email with
  | Some _ => true
  | None => false
  end.

(** One entry of the issue list of [validate_lead]; [detail] is a key of
    the company size entry only. *)
Record lead_issue : Type := LeadIssue {
  field : str;
  issue : str;
  issue_severity : str;
  detail : option str
}.

Definition valid_sizes : list str :=
  [lit "1-50"; lit "50-500"; lit "500-2000"; lit "2000+"].

Definition missing_company_name : lead_issue :=
  {| field := lit "company_name"; issue := lit "missing_required_field";
     issue_severity := lit "critical"; detail := None |}.

Definition missing_contact_email : lead_issue :=
  {| field := lit "contact_email"; issue := lit "missing_required_field";
     issue_severity := lit "critical"; detail := None |}.

Definition invalid_contact_email : lead_issue :=
  {| field := lit "contact_email"; issue := lit "invalid_email_format";
     issue_severity := lit "critical"; detail := None |}.

Definition invalid_company_size : lead_issue :=
  {| field := lit "company_size"; issue := lit "invalid_value";
     issue_severity := lit "warning";
     detail :=
       Some (lit "Expected one of: ['1-50', '50-500', '500-2000', '2000+']") |}.

(** The dict [validate_lead] returns. *)
Record lead_validation : Type := LeadValidation {
  valid : bool;
  issues : list lead_issue
}.

(** [ValidationService.validate_lead]. *)
Definition validate_lead (lead_data : lead) : lead_validation :=
  let issues := [] in
  let issues :=
    if negb (truthy (get lead_data "company_name" None))
    then issues ++ [missing_company_name] else issues in
  let issues :=
    if negb (truthy (get lead_data "contact_email" None))
    then issues ++ [missing_contact_email]
    else if negb (validate_email (str_of (get lead_data "contact_email" None)))
    then issues ++ [invalid_contact_email]
    else issues in
  let issues :=
    if truthy (get lead_data "company_size" None)
    then
      if negb (among (get lead_data "company_size" None) valid_sizes)
      then issues ++ [invalid_company_size] else issues
    else issues in
  {| valid :=
       (length (List.filter
                  (fun i => str_eqb (issue_severity i) (lit "critical"))
                  issues) =? 0)%nat;
     issues := issues |}.

(** One entry of the list [check_duplicates] returns. *)
Record duplicate : Type := Duplicate {
  email : str;
  indices : nat * nat;
  duplicate_issue : str
}.

(** The loop of [check_duplicates] from index [idx] on; [None] stands for
    the AttributeError of [None.lower()]. *)
Fixpoint check_duplicates_from (idx : nat) (leads : list lead)
    (seen_emails : gmap str nat) (duplicates : list duplicate)
    : option (list duplicate) :=
  match leads with
  | [] => Some duplicates
  | lead :: rest =>
      match get lead "contact_email" (Some []) with
      | None => None
      | Some contact_email =>
          let email := lower contact_email in
          match seen_emails !! email with
          | Some first =>
              check_duplicates_from (S idx) rest seen_emails
                (duplicates
                 ++ [ {| email := email; indices := (first, idx);
                         duplicate_issue := lit "duplicate_email" |} ])
          | None =>
              check_duplicates_from (S idx) rest
                (<[email := idx]> seen_emails) duplicates
          end
      end
  end.

(** [ValidationService.check_duplicates]. *)
Definition check_duplicates (leads : list lead) : option (list duplicate) :=
  check_duplicates_from 0 leads ∅ [].

End Validation.

(** ** [routers/leads.py]: the qualify endpoint *)

Module LeadsRouter.

(** A row of the table [leads], keyed by its id: the text columns and the
    integer column [score]. *)
Record lead_row : Type := LeadRow {
  columns : lead;
  score : pyval
}.

(** A row of [agent_interactions], as the endpoint inserts it. *)
Record interaction : Type := Interaction {
  lead_id : Z;
  action_type : str;
  decision : str;
  email_content : option pyval;
  reasoning : pyval;
  escalated : pyval
}.

Record database : Type := Database {
  leads : gmap Z lead_row;
  agent_interactions : list interaction
}.

(** [LeadQualifyResponse]. *)
Record qualify_response : Type := QualifyResponse {
  response_lead_id : Z;
  response_qualified : pyval;
  response_score : pyval;
  response_reasoning : pyval;
  response_email_content : option pyval;
  response_escalated : pyval
}.

Inductive http (A : Type) : Type :=
| Returns (a : A)
| HTTPException (status_code : Z) (detail : str).

Arguments Returns {A} a.
Arguments HTTPException {A} status_code detail.

(** Truth value of a result field. *)
Definition truth (v : pyval) : bool :=
  match v with
  | PyNone => false
  | PyBool b => b
  | PyInt n => negb (n =? 0)
  | PyStr s => negb (str_eqb s [])
  | PyIssues l => match l with [] => false | _ :: _ => true end
  end.

(** The score handed to [generate_email], an integer in every result of
    [qualify_lead]. *)
Definition as_int (v : pyval) : option Z :=
  match v with
  | PyInt n => Some n
  | _ => None
  end.

Section Endpoint.
(** The oracle behind the agent, the clock at the two results and the
    clock of the database. *)
Variable oracle : str -> Z -> Q -> option str.
Variables (now1 now2 db_now : str).

(** Lines 129 to 141: qualification, then the email when the lead is
    qualified and not escalated.  [None] stands for an exception. *)
Definition qualify_and_email (use_variant : str) (lead_data : lead)
    : option (result * option pyval) :=
  let agent := {| variant := use_variant; llm := oracle |} in
  result ← qualify_lead agent now1 lead_data;
  qualified ← result !! "qualified";
  escalated ← result !! "escalated";
  if truth qualified && negb (truth escalated) then
    score ← result !! "score";
    qualification_score ← as_int score;
    email_result ← generate_email agent now2 lead_data qualification_score;
    governance_approved ← email_result !! "governance_approved";
    if truth governance_approved then
      email_content ← email_result !! "email_content";
      Some (result, Some email_content)
    else
      Some (<["escalation_reason" := PyStr (lit "Email failed governance check")]>
              (<["escalated" := PyBool true]> result), None)
  else Some (result, None).

(** [POST /api/leads/{lead_id}/qualify]. *)
Definition qualify_lead_endpoint (db : database) (lead_id : Z)
    (use_variant : str) : option (http qualify_response * database) :=
  match leads db !! lead_id with
  | None => Some (HTTPException 404 (lit "Lead not found"), db)
  | Some lead =>
      let lead_data := columns lead in
      '(result, email_content) ← qualify_and_email use_variant lead_data;
      qualified ← result !! "qualified";
      let new_status :=
        if truth qualified then lit "qualified" else lit "disqualified" in
      score ← result !! "score";
      reasoning ← result !! "reasoning";
      escalated ← result !! "escalated";
      let updated :=
        {| columns :=
             <["updated_at" := Some db_now]>
               (<["status" := Some new_status]> (columns lead));
           score := score |} in
      let logged :=
        {| lead_id := lead_id;
           action_type := lit "qualification";
           decision := new_status;
           email_content := email_content;
           reasoning := reasoning;
           escalated := escalated |} in
      Some
        (Returns
           {| response_lead_id := lead_id;
              response_qualified := qualified;
              response_score := score;
              response_reasoning := reasoning;
              response_email_content := email_content;
              response_escalated := escalated |},
         {| leads := <[lead_id := updated]> (leads db);
            agent_interactions := agent_interactions db ++ [logged] |})
  end.
End Endpoint.

End LeadsRouter.

(** ** Vocabulary of the further statements *)

(** Some literal text of the template has [kw] in it, in any letter case. *)
Definition mentions (kw : str) (tmpl : template) : bool :=
  existsb
    (fun seg =>
       match seg with
       | Text s => isin kw (lower s)
       | Field _ => false
       end) tmpl.

(** *** Further sample inputs *)

Definition costco : lead :=
  {[ "company_name" := Some (lit "Costco Wholesale");
     "industry" := Some (lit "Retail");
     "company_size" := Some (lit "2000+") ]}.

(** An endpoint that is loading the model, then times out, then answers. *)
Definition warming_up (n : nat) : outcome :=
  match n with
  | 0%nat => Response 503 NoChoices
  | 1%nat => RaisesTimeout
  | _ => Response 200 (Completion (lit "  Score: 85 "))
  end.

(** * Properties *)

(** ** Characters and strings *)







Lemma str_eqb_eq a b : str_eqb a b = true <-> a = b.
Proof.
  revert b. induction a as [|x a IH]; intros [|y b]; simpl;
    try (split; [discriminate | discriminate]); [tauto|].
  rewrite andb_true_iff, Ascii.eqb_eq, IH. split.
  - now intros [-> ->].
  - intros H. now injection H.
Qed.

Lemma startswith_spec p s :
  startswith p s = true <-> exists post, s = p ++ post.
Proof.
  revert s. induction p as [|a p IH]; intros s; simpl.
  - split; eauto.
  - destruct s as [|b s].
    + split; [discriminate | intros [post H]; discriminate].
    + rewrite andb_true_iff, IH, Ascii.eqb_eq. split.
      * intros [-> [post ->]]. eauto.
      * intros [post H]. injection H as -> ->. eauto.
Qed.

Lemma isin_spec p s :
  isin p s = true <-> exists pre post, s = pre ++ p ++ post.
Proof.
  induction s as [|b s IH]; simpl.
  - rewrite orb_false_r, startswith_spec. split.
    + intros [post H]. exists [], post. exact H.
    + intros [pre [post H]]. destruct pre; [eauto |discriminate].
  - rewrite orb_true_iff, IH, startswith_spec. split.
    + intros [[post H] | [pre [post H]]].
      * exists [], post. exact H.
      * exists (b :: pre), post. simpl. now rewrite H.
    + intros [pre [post H]]. destruct pre as [|c pre]; simpl in H.
      * left. eauto.
      * right. injection H as -> ->. eauto.
Qed.

Lemma isin_map_spec (f : ascii -> ascii) tok s :
  isin (map f tok) (map f s) = true <->
  exists pre w post, s = pre ++ w ++ post /\ map f w = map f tok.
Proof.
  rewrite isin_spec. split.
  - intros (pre' & post' & H).
    apply map_eq_app in H as (pre & rest & -> & Hpre & H).
    apply map_eq_app in H as (w & post & -> & Hw & Hpost).
    exists pre, w, post. split; [reflexivity | exact Hw].
  - intros (pre & w & post & -> & Hw).
    exists (map f pre), (map f post). now rewrite !map_app, Hw.
Qed.

(** The two ways the source tests for a token in any letter case. *)
Lemma isin_lower_spec tok s :
  isin (lower tok) (lower s) = true <-> contains_any_case tok s.
Proof. apply isin_map_spec. Qed.
















(** ** The matcher *)

Section StarLemmas.
Variable p : ascii -> bool.
Variable k : str -> option match_obj.




End StarLemmas.


Lemma rmatch_lits_i cs r s g k :
  rmatch (lits_i cs r) s g k =
  if startswith (lower cs) (lower s)
  then rmatch r (drop (length cs) s) g k else None.
Proof.
  revert s. induction cs as [|a cs IH]; intros s; simpl; [reflexivity|].
  destruct s as [|b s]; [reflexivity|].
  simpl. rewrite Ascii.eqb_sym.
  destruct (Ascii.eqb (lower_char a) (lower_char b)); simpl;
    [apply IH | reflexivity].
Qed.



(** ** The three patterns *)














Lemma re_match_subject s :
  re_match subject_re s =
  if startswith (lit "subject:") (lower s) then Some (MatchObj None) else None.
Proof.
  unfold re_match, subject_re. rewrite rmatch_lits_i.
  change (lower (lit "subject:")) with (lit "subject:").
  destruct (startswith (lit "subject:") (lower s)); [|reflexivity].
  unfold eps. cbn [rmatch].
  now destruct (drop (length (lit "subject:")) s).
Qed.

Lemma re_search_subject s :
  re_search subject_re s =
  if isin (lit "subject:") (lower s) then Some (MatchObj None) else None.
Proof.
  induction s as [|c s IH]; cbn [re_search]; rewrite re_match_subject.
  - cbn [lower map isin]. now destruct (startswith (lit "subject:") []).
  - cbn [lower map isin]. fold (lower s).
    destruct (startswith (lit "subject:") (lower_char c :: lower s));
      [reflexivity | exact IH].
Qed.

Lemma subject_found s :
  is_Some (re_search subject_re s) <-> contains_any_case (lit "subject:") s.
Proof.
  rewrite re_search_subject, <- isin_lower_spec.
  change (lower (lit "subject:")) with (lit "subject:").
  destruct (isin (lit "subject:") (lower s)); split; intros H;
    try reflexivity; try discriminate; eauto.
  now destruct H.
Qed.

(** ** Response parser *)









(** ** Escalation policy *)

Lemma not_truthy_get lead_data k :
  truthy (get lead_data k None) = false <-> absent_or_empty lead_data k.
Proof.
  unfold get, absent_or_empty.
  destruct (lead_data !! k) as [[[|c s]|]|]; simpl; split; intros H;
    try reflexivity; try discriminate; try tauto.
  destruct H as [H | [H | H]]; discriminate.
Qed.

Lemma truthy_get lead_data k :
  truthy (get lead_data k None) = true <-> present lead_data k.
Proof.
  unfold get, present. destruct (lead_data !! k) as [[[|c s]|]|]; simpl;
    split; intros H; try discriminate; eauto;
    destruct H as (? & ? & H); discriminate.
Qed.

Lemma missing_data_spec lead_data :
  missing_data lead_data = true <->
  absent_or_empty lead_data "industry" \/ absent_or_empty lead_data "company_size".
Proof.
  unfold missing_data.
  rewrite orb_true_iff, !negb_true_iff, !not_truthy_get. reflexivity.
Qed.

Lemma competitor_scan_none cs text :
  (forall c, In c cs -> isin c text = false) ->
  competitor_scan cs text = (false, None).
Proof.
  induction cs as [|c cs IH]; simpl; intros H; [reflexivity|].
  rewrite (H c) by now left. apply IH. intros c' Hc'. apply H. now right.
Qed.

Lemma competitor_scan_first before c after text :
  isin c text = true ->
  (forall c', In c' before -> isin c' text = false) ->
  competitor_scan (before ++ c :: after) text
  = (true, Some (competitor_reason c)).
Proof.
  intros Hc. induction before as [|b before IH]; simpl; intros H.
  - now rewrite Hc.
  - rewrite (H b) by now left. apply IH. intros c' Hc'. apply H. now right.
Qed.

Lemma competitor_scan_true cs text :
  (competitor_scan cs text).1 = true <-> exists c, In c cs /\ isin c text = true.
Proof.
  induction cs as [|c cs IH]; simpl.
  - split; [discriminate | intros (c & [] & _)].
  - destruct (isin c text) eqn:E; simpl.
    + split; [|reflexivity]. intros _. exists c. split; [now left | exact E].
    + rewrite IH. split.
      * intros (c' & Hin & Hc'). exists c'. split; [now right | exact Hc'].
      * intros (c' & [<- | Hin] & Hc'); [congruence|]. eauto.
Qed.

Lemma competitor_lower c : In c competitors -> lower c = c.
Proof.
  intros [<- | [<- | [<- | [<- | []]]]]; reflexivity.
Qed.

Lemma text_to_check_spec lead_data reasoning :
  text_to_check lead_data reasoning
  = lower (company_name_of lead_data ++ lit " " ++ reasoning).
Proof.
  unfold text_to_check, company_name_of, get.
  now destruct (lead_data !! "company_name") as [[s|]|].
Qed.

Lemma competitor_occurs lead_data reasoning c :
  In c competitors ->
  isin c (text_to_check lead_data reasoning) = true <->
  contains_any_case c (company_name_of lead_data ++ lit " " ++ reasoning).
Proof.
  intros Hc. rewrite text_to_check_spec, <- (competitor_lower c Hc) at 1.
  apply isin_lower_spec.
Qed.

(** C3. The check escalates iff a rule fires: a competitor of the list
    occurs, in any letter case, in the company name and the reasoning put
    together, or industry or company size is absent or empty.  The
    missing-data rule sets its reason whenever it fires; otherwise the
    reason names the first competitor of the list that occurs.  A lead whose
    industry is None is escalated whatever the decision and the reasoning. *)
Theorem escalation_rules (lead_data : lead) (decision reasoning : str) :
  let '(escalated, reason) :=
    _check_escalation_rules lead_data decision reasoning in
  let text := company_name_of lead_data ++ lit " " ++ reasoning in
  let missing :=
    absent_or_empty lead_data "industry"
    \/ absent_or_empty lead_data "company_size" in
  (escalated = true <->
   (exists c, In c competitors /\ contains_any_case c text) \/ missing)
  /\ (missing -> reason = Some (lit "Missing critical lead data"))
  /\ (~ missing ->
      forall before c after,
        competitors = before ++ c :: after ->
        contains_any_case c text ->
        (forall c', In c' before -> ~ contains_any_case c' text) ->
        reason = Some (lit "Competitor '" ++ c ++ lit "' mentioned"))
  /\ (lead_data !! "industry" = Some None -> escalated = true).
Proof.
  unfold _check_escalation_rules.
  pose proof (missing_data_spec lead_data) as Hmiss.
  pose proof (competitor_scan_true competitors
                (text_to_check lead_data reasoning)) as Hscan.
  destruct (competitor_scan competitors (text_to_check lead_data reasoning))
    as [escalated reason] eqn:Escan.
  simpl in Hscan.
  destruct (missing_data lead_data) eqn:Em; cbv zeta.
  - assert (absent_or_empty lead_data "industry"
            \/ absent_or_empty lead_data "company_size") as M by now apply Hmiss.
    split; [tauto|]. split; [reflexivity|]. split; [tauto | reflexivity].
  - assert (~ (absent_or_empty lead_data "industry"
               \/ absent_or_empty lead_data "company_size")) as M.
    { intros M. apply Hmiss in M. discriminate. }
    split; [|split; [tauto|split]].
    + rewrite Hscan. split.
      * intros (c & Hin & Hc). left. exists c. split; [exact Hin|].
        now apply competitor_occurs.
      * intros [(c & Hin & Hc) | ?]; [|tauto]. exists c. split; [exact Hin|].
        now apply competitor_occurs.
    + intros _ before c after E Hc Hbefore.
      assert (In c competitors) as Hin by (rewrite E; apply in_elt).
      rewrite E in Escan. rewrite competitor_scan_first in Escan.
      * now injection Escan as _ <-.
      * now apply competitor_occurs.
      * intros c' Hc'.
        assert (In c' competitors) as Hin'
          by (rewrite E; apply in_or_app; now left).
        destruct (isin c' (text_to_check lead_data reasoning)) eqn:Ec';
          [|reflexivity].
        apply competitor_occurs in Ec'; [|exact Hin']. now destruct (Hbefore c').
    + intros Hnone. destruct M. left. right. now left.
Qed.

(** C3 on the lead of the specification's scenario, and on the same lead
    without industry. *)
Lemma escalation_rules_witness :
  _check_escalation_rules acme (lit "QUALIFIED") (lit "Strong fit")
  = (true, Some (lit "Competitor 'salesforce' mentioned"))
  /\ (_check_escalation_rules (<["industry" := None]> acme)
        (lit "QUALIFIED") (lit "Strong fit")).1 = true.
Proof.
  split.
  - pose proof (escalation_rules acme (lit "QUALIFIED") (lit "Strong fit")) as H.
    destruct (_check_escalation_rules acme _ _) as [escalated reason].
    cbv zeta in H. destruct H as (He & _ & Hr & _).
    assert (contains_any_case (lit "salesforce")
              (company_name_of acme ++ lit " " ++ lit "Strong fit")) as Hc.
    { exists (lit "Acme "), (lit "Salesforce"), (lit " Corp Strong fit").
      split; reflexivity. }
    f_equal.
    + apply He. left. exists (lit "salesforce"). split; [now left | exact Hc].
    + apply (Hr ltac:(intros [[M | [M | M]] | [M | [M | M]]]; discriminate M)
               [] (lit "salesforce") (tl competitors) eq_refl Hc).
      intros c' [].
  - pose proof (escalation_rules (<["industry" := None]> acme)
                  (lit "QUALIFIED") (lit "Strong fit")) as H.
    destruct (_check_escalation_rules _ _ _) as [escalated reason].
    cbv zeta in H. destruct H as (_ & _ & _ & H). now apply H.
Defined.

(** ** Governance policy *)

Lemma pricing_keyword_lower kw : In kw pricing_keywords -> lower kw = kw.
Proof.
  intros [<- | [<- | [<- | [<- | [<- | [<- | [<- | []]]]]]]]; reflexivity.
Qed.

Lemma pricing_found s :
  existsb (fun keyword => isin keyword (lower s)) pricing_keywords = true <->
  exists kw, In kw pricing_keywords /\ contains_any_case kw s.
Proof.
  rewrite existsb_exists. split; intros (kw & Hin & H); exists kw;
    (split; [exact Hin|]).
  - apply isin_lower_spec. now rewrite (pricing_keyword_lower kw Hin).
  - apply isin_lower_spec in H. now rewrite (pricing_keyword_lower kw Hin) in H.
Qed.

(** The three rules, each as the condition under which its issue is filed. *)
Lemma _check_governance_issues email_content :
  _check_governance email_content =
  let pricing :=
    existsb (fun keyword => isin keyword (lower email_content)) pricing_keywords in
  let long := (1000 <? length email_content)%nat in
  let subject := isin (lit "subject:") (lower email_content) in
  (negb pricing,
   (if pricing then [pricing_issue] else [])
   ++ (if long then [length_issue] else [])
   ++ (if subject then [] else [subject_issue])).
Proof.
  unfold _check_governance. rewrite re_search_subject. cbv zeta.
  destruct (existsb _ pricing_keywords), (1000 <? length email_content)%nat,
    (isin (lit "subject:") (lower email_content)); reflexivity.
Qed.



(** C6. An email text that contains a pricing keyword in any letter case
    gets a critical issue with rule id no_pricing_discussion, and is not
    approved. *)
Theorem pricing_keyword_is_critical (email_content kw : str) :
  In kw pricing_keywords ->
  contains_any_case kw email_content ->
  let '(approved, issues) := _check_governance email_content in
  (exists i, In i issues
             /\ rule i = lit "no_pricing_discussion"
             /\ severity i = lit "critical")
  /\ approved = false.
Proof.
  intros Hkw Hc. rewrite _check_governance_issues. cbv zeta.
  assert (existsb (fun keyword => isin keyword (lower email_content))
            pricing_keywords = true) as ->
    by (apply pricing_found; eauto).
  split; [|reflexivity].
  exists pricing_issue. split; [now left | now split].
Qed.

(** C6 on the text of the specification's scenario, for the keyword "$". *)
Lemma pricing_keyword_is_critical_witness :
  (exists i, In i (_check_governance (lit "Our pricing starts at $99/month")).2
             /\ rule i = lit "no_pricing_discussion"
             /\ severity i = lit "critical")
  /\ (_check_governance (lit "Our pricing starts at $99/month")).1 = false.
Proof.
  pose proof (pricing_keyword_is_critical
                (lit "Our pricing starts at $99/month") (lit "$")) as H.
  destruct (_check_governance _) as [approved issues].
  apply H.
  - do 3 right. now left.
  - exists (lit "Our pricing starts at "), (lit "$"), (lit "99/month").
    split; reflexivity.
Defined.

(** ** Completion oracle *)


Lemma _fallback_response_nonempty prompt : _fallback_response prompt <> [].
Proof.
  unfold _fallback_response.
  destruct (isin (lit "qualify") (lower prompt)
            || isin (lit "score") (lower prompt));
    [discriminate|].
  destruct (isin (lit "email") (lower prompt)
            || isin (lit "message") (lower prompt)); discriminate.
Qed.

(** When no attempt gets a completion, the loop ends in the canned text. *)
Lemma attempts_exhausted self net prompt max_tokens temperature n attempt :
  (forall i text, net i <> Response 200 (Completion text)) ->
  (attempts self net prompt max_tokens temperature n attempt).2
  = _fallback_response prompt.
Proof.
  intros Hnet. revert attempt.
  induction n as [|n IH]; intros attempt; cbn [attempts]; [reflexivity|].
  specialize (IH (S attempt)).
  destruct (attempts self net prompt max_tokens temperature n (S attempt))
    as [tr r].
  simpl in IH. subst r.
  destruct (net attempt) as [status b| |] eqn:E; try reflexivity.
  destruct (status =? 200) eqn:E200.
  - apply Z.eqb_eq in E200 as ->.
    destruct b; try reflexivity. now destruct (Hnet attempt content).
  - now destruct (status =? 503).
Qed.

(** An endpoint that cannot be reached gives non-empty text, so that
    [qualify_lead] parses it and does not take its own fallback. *)
Lemma unreachable_oracle_is_not_falsy self net prompt max_tokens temperature :
  (forall i text, net i <> Response 200 (Completion text)) ->
  falsy (Some (generate self net prompt max_tokens temperature).2) = false.
Proof.
  intros Hnet.
  assert ((generate self net prompt max_tokens temperature).2
          = _fallback_response prompt) as ->.
  { unfold generate. destruct (enabled self); cbn [negb]; [|reflexivity].
    now apply attempts_exhausted. }
  pose proof (_fallback_response_nonempty prompt) as H.
  now destruct (_fallback_response prompt).
Qed.

(** Without a token, with an empty one or with the placeholder, the
    service is disabled. *)
Lemma init_without_credential HF_MODEL AGENT_MAX_RETRIES AGENT_TIMEOUT :
  enabled (init None HF_MODEL AGENT_MAX_RETRIES AGENT_TIMEOUT) = false
  /\ enabled (init (Some []) HF_MODEL AGENT_MAX_RETRIES AGENT_TIMEOUT) = false
  /\ enabled (init (Some (lit "your_huggingface_token_here")) HF_MODEL
                AGENT_MAX_RETRIES AGENT_TIMEOUT) = false.
Proof. repeat split. Qed.



(** ** Orchestrator *)

Lemma format_is_Some tmpl (kwargs : gmap string str) :
  Forall (fun name => is_Some (kwargs !! name)) (fields tmpl) ->
  is_Some (format tmpl kwargs).
Proof.
  induction tmpl as [|[s|name] rest IH]; simpl; intros H.
  - eauto.
  - destruct (IH H) as [r ->]. simpl. eauto.
  - inversion H as [|? ? [v Hv] Hrest]; subst.
    destruct (IH Hrest) as [r Hr]. rewrite Hv. simpl. rewrite Hr. simpl. eauto.
Qed.

Lemma qualification_prompt_is_Some self lead_data :
  is_Some (qualification_prompt self lead_data).
Proof.
  unfold qualification_prompt, get_qualification_prompt.
  apply format_is_Some.
  destruct (str_eqb (variant self) (lit "B"));
    cbv [fields QUALIFICATION_PROMPT_A QUALIFICATION_PROMPT_B];
    repeat constructor; simplify_map_eq; eauto.
Qed.

Lemma email_prompt_is_Some self lead_data qualification_score :
  is_Some (email_prompt self lead_data qualification_score).
Proof.
  unfold email_prompt, get_email_prompt.
  apply format_is_Some.
  destruct (str_eqb (variant self) (lit "B"));
    cbv [fields EMAIL_PROMPT_A EMAIL_PROMPT_B];
    repeat constructor; simplify_map_eq; eauto.
Qed.

Lemma among_spec lead_data k choices :
  among (get lead_data k None) choices = true <->
  exists s, lead_data !! k = Some (Some s) /\ In s choices.
Proof.
  unfold among, get. destruct (lead_data !! k) as [[s|]|]; simpl.
  - rewrite existsb_exists. split.
    + intros (x & Hin & E). apply str_eqb_eq in E as ->. eauto.
    + intros (x & E & Hin). injection E as <-. exists s.
      split; [exact Hin | now apply str_eqb_eq].
  - split; [discriminate | intros (s & E & _); discriminate].
  - split; [discriminate | intros (s & E & _); discriminate].
Qed.

Lemma bonus_of_test (b : bool) (P : Prop) points :
  (b = true <-> P) -> bonus P points (if b then points else 0).
Proof.
  intros H. destruct b; [left | right]; (split; [|reflexivity]).
  - now apply H.
  - intros HP. apply H in HP. discriminate.
Qed.

Lemma _fallback_qualification_score self now lead_data :
  exists b1 b2 b3,
    bonus (mid_size lead_data) 20 b1
    /\ bonus (preferred_industry lead_data) 20 b2
    /\ bonus (present lead_data "contact_name"
              /\ present lead_data "contact_email") 10 b3
    /\ _fallback_qualification self now lead_data =
       {[ "qualified" := PyBool (60 <=? 50 + b1 + b2 + b3);
          "score" := PyInt (50 + b1 + b2 + b3);
          "reasoning" := PyStr (lit "Rule-based qualification (LLM unavailable)");
          "escalated" := PyBool false;
          "variant" := PyStr (variant self);
          "timestamp" := PyStr now ]}.
Proof.
  unfold _fallback_qualification.
  pose proof (among_spec lead_data "company_size" [lit "50-500"; lit "500-2000"])
    as H1.
  pose proof (among_spec lead_data "industry"
                [lit "SaaS"; lit "Finance"; lit "Healthcare"; lit "Technology"])
    as H2.
  pose proof (truthy_get lead_data "contact_name") as Hn.
  pose proof (truthy_get lead_data "contact_email") as He.
  set (t1 := among (get lead_data "company_size" None) _) in *.
  set (t2 := among (get lead_data "industry" None) _) in *.
  set (t3 := truthy (get lead_data "contact_name" None)
             && truthy (get lead_data "contact_email" None)).
  exists (if t1 then 20 else 0), (if t2 then 20 else 0), (if t3 then 10 else 0).
  split; [now apply bonus_of_test|].
  split; [now apply bonus_of_test|].
  split.
  - apply bonus_of_test. unfold t3. now rewrite andb_true_iff, Hn, He.
  - destruct t1, t2, t3; reflexivity.
Qed.

(** C5. When the oracle's answer to the qualification prompt is None or
    empty, [qualify_lead] returns the rule-based result: score 50, plus 20
    for a mid-size company, plus 20 for a preferred industry, plus 10 when
    contact name and email are both present; qualified iff the score is at
    least 60; the fixed reasoning; escalated false.  For company size
    50-500, industry SaaS and both contact fields the score is 100, the lead
    is qualified and not escalated. *)
Theorem fallback_qualification (self : agent) (now : str) (lead_data : lead) :
  (forall prompt,
      qualification_prompt self lead_data = Some prompt ->
      falsy (llm self prompt 300 (3 # 10)%Q) = true) ->
  (exists b1 b2 b3,
      bonus (mid_size lead_data) 20 b1
      /\ bonus (preferred_industry lead_data) 20 b2
      /\ bonus (present lead_data "contact_name"
                /\ present lead_data "contact_email") 10 b3
      /\ qualify_lead self now lead_data =
         Some
           {[ "qualified" := PyBool (60 <=? 50 + b1 + b2 + b3);
              "score" := PyInt (50 + b1 + b2 + b3);
              "reasoning" :=
                PyStr (lit "Rule-based qualification (LLM unavailable)");
              "escalated" := PyBool false;
              "variant" := PyStr (variant self);
              "timestamp" := PyStr now ]})
  /\ (lead_data !! "company_size" = Some (Some (lit "50-500")) ->
      lead_data !! "industry" = Some (Some (lit "SaaS")) ->
      present lead_data "contact_name" ->
      present lead_data "contact_email" ->
      exists r,
        qualify_lead self now lead_data = Some r
        /\ r !! "score" = Some (PyInt 100)
        /\ r !! "qualified" = Some (PyBool true)
        /\ r !! "escalated" = Some (PyBool false)).
Proof.
  intros Hllm.
  assert (qualify_lead self now lead_data
          = Some (_fallback_qualification self now lead_data)) as Hq.
  { unfold qualify_lead.
    destruct (qualification_prompt_is_Some self lead_data) as [prompt Hp].
    rewrite Hp. simpl. now rewrite (Hllm prompt Hp). }
  destruct (_fallback_qualification_score self now lead_data)
    as (b1 & b2 & b3 & B1 & B2 & B3 & Hr).
  split.
  - exists b1, b2, b3. rewrite Hq, Hr. auto.
  - intros Hsize Hind Hname Hemail.
    assert (b1 = 20) as ->.
    { destruct B1 as [[_ ->] | [N _]]; [reflexivity|]. destruct N.
      exists (lit "50-500"). split; [exact Hsize | now left]. }
    assert (b2 = 20) as ->.
    { destruct B2 as [[_ ->] | [N _]]; [reflexivity|]. destruct N.
      exists (lit "SaaS"). split; [exact Hind | now left]. }
    assert (b3 = 10) as ->.
    { destruct B3 as [[_ ->] | [N _]]; [reflexivity | tauto]. }
    eexists. split; [rewrite Hq, Hr; reflexivity|].
    repeat split; now simplify_map_eq.
Qed.

(** C5 on the lead of the specification's scenario. *)
Lemma fallback_qualification_witness :
  exists r,
    qualify_lead (Agent (lit "A") (stub None)) (lit "2024-05-01T10:00:00") jane
    = Some r
    /\ r !! "score" = Some (PyInt 100)
    /\ r !! "qualified" = Some (PyBool true)
    /\ r !! "escalated" = Some (PyBool false).
Proof.
  apply (fallback_qualification (Agent (lit "A") (stub None))
           (lit "2024-05-01T10:00:00") jane).
  - intros prompt _. reflexivity.
  - reflexivity.
  - reflexivity.
  - exists "J"%char, (lit "ane"). reflexivity.
  - exists "j"%char, (lit "@x.com"). reflexivity.
Defined.





(** * Further properties *)


Section Budget.
Variable self : service.
Variable net : nat -> outcome.
Variables (prompt : str) (max_tokens : Z) (temperature : Q).

Lemma backoff_cases attempt :
  backoff self attempt = [] \/ backoff self attempt = [Sleep (2 ^ Z.of_nat attempt)].
Proof. unfold backoff. destruct (_ <? _); auto. Qed.

(** One turn of the loop: a completion ends it; anything else is followed
    by at most one sleep, of 10 seconds or of the backoff. *)
Lemma attempts_step n attempt :
  (exists text,
      net attempt = Response 200 (Completion text)
      /\ attempts self net prompt max_tokens temperature (S n) attempt
         = ([Post prompt max_tokens temperature], strip text))
  \/ ((forall text, net attempt <> Response 200 (Completion text))
      /\ exists evs,
          (evs = [] \/ evs = [Sleep 10]
           \/ evs = [Sleep (2 ^ Z.of_nat attempt)])
          /\ attempts self net prompt max_tokens temperature (S n) attempt
             = (Post prompt max_tokens temperature :: evs
                ++ (attempts self net prompt max_tokens temperature n
                      (S attempt)).1,
                (attempts self net prompt max_tokens temperature n
                   (S attempt)).2)).
Proof.
  cbn [attempts].
  destruct (attempts self net prompt max_tokens temperature n (S attempt))
    as [tr r].
  assert (forall evs,
             evs = [] \/ evs = [Sleep 10]
             \/ evs = [Sleep (2 ^ Z.of_nat attempt)] ->
             exists evs',
               (evs' = [] \/ evs' = [Sleep 10]
                \/ evs' = [Sleep (2 ^ Z.of_nat attempt)])
               /\ (Post prompt max_tokens temperature :: evs ++ tr, r)
                  = (Post prompt max_tokens temperature :: evs' ++ (tr, r).1,
                     (tr, r).2)) as Hnext by eauto.
  assert (backoff self attempt = [] \/ backoff self attempt = [Sleep 10]
          \/ backoff self attempt = [Sleep (2 ^ Z.of_nat attempt)]) as Hb
    by (destruct (backoff_cases attempt); auto).
  destruct (net attempt) as [status b| |] eqn:E.
  - destruct (status =? 200) eqn:E200.
    + apply Z.eqb_eq in E200 as ->. destruct b as [text| |].
      * left. exists text. split; reflexivity.
      * right. split; [intros text; discriminate | auto].
      * right. split; [intros text; discriminate | auto].
    + apply Z.eqb_neq in E200. right.
      split; [intros text H; injection H as H _; contradiction|].
      destruct (status =? 503); auto.
  - right. split; [intros text; discriminate | auto].
  - right. split; [intros text; discriminate | auto].
Qed.

Lemma requests_step evs tr :
  evs = [] \/ evs = [Sleep 10] \/ (exists k, evs = [Sleep k]) ->
  requests (Post prompt max_tokens temperature :: evs ++ tr) = S (requests tr).
Proof. intros [-> | [-> | [k ->]]]; reflexivity. Qed.

(** What the loop comes to: the fallback text after [n] requests when no
    attempt gets a completion, or the stripped text of the first
    completion, after one request for each attempt up to it. *)
Lemma attempts_outcome n attempt :
  let '(trace, text) :=
    attempts self net prompt max_tokens temperature n attempt in
  (text = _fallback_response prompt
   /\ requests trace = n
   /\ forall j content,
        (j < n)%nat -> net (attempt + j)%nat <> Response 200 (Completion content))
  \/ (exists i content,
        (i < n)%nat
        /\ net (attempt + i)%nat = Response 200 (Completion content)
        /\ (forall j c, (j < i)%nat ->
                        net (attempt + j)%nat <> Response 200 (Completion c))
        /\ text = strip content
        /\ requests trace = S i).
Proof.
  revert attempt. induction n as [|n IH]; intros attempt.
  - left. repeat split. intros j content Hj. lia.
  - specialize (IH (S attempt)).
    destruct (attempts_step n attempt)
      as [(content & Hnet & ->) | (Hnone & evs & Hevs & ->)].
    + right. exists 0%nat, content. rewrite Nat.add_0_r.
      repeat split; [lia | exact Hnet | intros j c Hj; lia].
    + destruct (attempts self net prompt max_tokens temperature n (S attempt))
        as [tr r].
      cbn [fst snd].
      assert (requests (Post prompt max_tokens temperature :: evs ++ tr)
              = S (requests tr)) as ->
        by (apply requests_step; intuition eauto).
      destruct IH as [(-> & Hreq & Hall) | (i & content & Hi & Hnet & Hbefore & -> & Hreq)].
      * left. repeat split; [now rewrite Hreq|].
        intros j content Hj. destruct j as [|j].
        -- rewrite Nat.add_0_r. apply Hnone.
        -- rewrite Nat.add_succ_r. apply Hall. lia.
      * right. exists (S i), content. rewrite Nat.add_succ_r.
        repeat split; [lia | exact Hnet | | now rewrite Hreq].
        intros j c Hj. destruct j as [|j].
        -- rewrite Nat.add_0_r. apply Hnone.
        -- rewrite Nat.add_succ_r. apply Hbefore. lia.
Qed.

(** The sleeps of the loop from [attempt] on, over [n] turns. *)
Lemma attempts_slept n attempt :
  0 <= slept (attempts self net prompt max_tokens temperature n attempt).1
    <= 10 * Z.of_nat n + 2 ^ Z.of_nat (attempt + n) - 2 ^ Z.of_nat attempt.
Proof.
  revert attempt. induction n as [|n IH]; intros attempt.
  - rewrite Nat.add_0_r. simpl. lia.
  - specialize (IH (S attempt)).
    destruct (attempts_step n attempt)
      as [(content & Hnet & ->) | (Hnone & evs & Hevs & ->)].
    + cbn [fst slept fold_right].
      assert (2 ^ Z.of_nat attempt <= 2 ^ Z.of_nat (attempt + S n))
        by (apply Z.pow_le_mono_r; lia).
      lia.
    + cbn [fst]. replace (attempt + S n)%nat with (S attempt + n)%nat by lia.
      assert (2 ^ Z.of_nat (S attempt) = 2 * 2 ^ Z.of_nat attempt) as E
        by (rewrite Nat2Z.inj_succ, Z.pow_succ_r; lia).
      assert (0 < 2 ^ Z.of_nat attempt) by (apply Z.pow_pos_nonneg; lia).
      destruct Hevs as [-> | [-> | ->]]; cbn [slept fold_right app];
        fold (slept (attempts self net prompt max_tokens temperature n
                       (S attempt)).1); lia.
Qed.
End Budget.

Lemma attempts_posts self net prompt max_tokens temperature n attempt e :
  In e (attempts self net prompt max_tokens temperature n attempt).1 ->
  is_post e = true -> e = Post prompt max_tokens temperature.
Proof.
  revert attempt. induction n as [|n IH]; intros a; [intros []|].
  destruct (attempts_step self net prompt max_tokens temperature n a)
    as [(content & _ & ->) | (_ & evs & Hevs & ->)]; cbn [fst].
  - intros [<- | []]. reflexivity.
  - intros [<- | Hin]; [reflexivity|].
    apply in_app_or in Hin as [Hin | Hin]; [|now apply (IH (S a))].
    destruct Hevs as [-> | [-> | ->]]; [destruct Hin | |];
      destruct Hin as [<- | []]; discriminate.
Qed.

(** X1. [generate] makes at most [max_retries] requests, none when that is
    not positive, and each request carries the arguments of the call. *)
Theorem generate_request_budget (self : service) (net : nat -> outcome)
    (prompt : str) (max_tokens : Z) (temperature : Q) :
  let '(trace, text) := generate self net prompt max_tokens temperature in
  (requests trace <= Z.to_nat (max_retries self))%nat
  /\ (forall e, In e trace -> is_post e = true ->
      e = Post prompt max_tokens temperature)
  /\ (max_retries self <= 0 ->
      trace = [] /\ text = _fallback_response prompt).
Proof.
  unfold generate. destruct (enabled self); cbn [negb].
  2:{ split; [apply Nat.le_0_l|]. split; [intros e []|]. intros _. now split. }
  pose proof (attempts_outcome self net prompt max_tokens temperature
                (Z.to_nat (max_retries self)) 0) as Hout.
  pose proof (attempts_posts self net prompt max_tokens temperature
                (Z.to_nat (max_retries self)) 0) as Hposts.
  assert (max_retries self <= 0 ->
          attempts self net prompt max_tokens temperature
            (Z.to_nat (max_retries self)) 0
          = ([], _fallback_response prompt)) as Hzero.
  { intros Hle. now replace (Z.to_nat (max_retries self)) with 0%nat by lia. }
  destruct (attempts self net prompt max_tokens temperature
              (Z.to_nat (max_retries self)) 0) as [trace text].
  split; [|split].
  - destruct Hout as [(_ & -> & _) | (i & c & Hi & _ & _ & _ & ->)]; lia.
  - exact Hposts.
  - intros Hle. specialize (Hzero Hle). now injection Hzero as -> ->.
Qed.

(** [generate] with the service enabled, as the loop from attempt 0. *)
Lemma generate_outcome (self : service) (net : nat -> outcome)
    (prompt : str) (max_tokens : Z) (temperature : Q) :
  enabled self = true ->
  let '(trace, text) := generate self net prompt max_tokens temperature in
  let n := Z.to_nat (max_retries self) in
  (text = _fallback_response prompt
   /\ requests trace = n
   /\ forall j c, (j < n)%nat -> net j <> Response 200 (Completion c))
  \/ (exists i content,
        (i < n)%nat
        /\ net i = Response 200 (Completion content)
        /\ (forall j c, (j < i)%nat -> net j <> Response 200 (Completion c))
        /\ text = strip content
        /\ requests trace = S i).
Proof.
  intros Hon. unfold generate. rewrite Hon. cbn [negb].
  apply (attempts_outcome self net prompt max_tokens temperature
           (Z.to_nat (max_retries self)) 0).
Qed.



(** X3. With the service enabled, when no attempt gets a completion the
    call makes [max_retries] requests and returns the fallback text, which
    is not empty. *)
Theorem exhausted_retries_fall_back (self : service) (net : nat -> outcome)
    (prompt : str) (max_tokens : Z) (temperature : Q) :
  enabled self = true ->
  (forall j c, (j < Z.to_nat (max_retries self))%nat ->
               net j <> Response 200 (Completion c)) ->
  let '(trace, text) := generate self net prompt max_tokens temperature in
  text = _fallback_response prompt
  /\ text <> []
  /\ requests trace = Z.to_nat (max_retries self).
Proof.
  intros Hon Hnone.
  pose proof (generate_outcome self net prompt max_tokens temperature Hon)
    as Hout.
  destruct (generate self net prompt max_tokens temperature) as [trace text].
  cbv zeta in Hout.
  destruct Hout as [(-> & Hreq & _) | (i & c & Hi & Hnet & _)].
  - split; [reflexivity|].
    split; [apply _fallback_response_nonempty | exact Hreq].
  - now destruct (Hnone i c).
Qed.

(** X4. The seconds [generate] sleeps are bounded by the number of retries
    alone. *)
Theorem generate_sleep_budget (self : service) (net : nat -> outcome)
    (prompt : str) (max_tokens : Z) (temperature : Q) :
  let '(trace, _) := generate self net prompt max_tokens temperature in
  0 <= slept trace
    <= 10 * Z.max 0 (max_retries self) + 2 ^ Z.max 0 (max_retries self) - 1.
Proof.
  unfold generate. destruct (enabled self); cbn [negb].
  - pose proof (attempts_slept self net prompt max_tokens temperature
                  (Z.to_nat (max_retries self)) 0) as H.
    destruct (attempts self net prompt max_tokens temperature
                (Z.to_nat (max_retries self)) 0) as [trace text].
    cbn [fst Nat.add] in H.
    assert (Z.of_nat (Z.to_nat (max_retries self))
            = Z.max 0 (max_retries self)) as E by lia.
    rewrite E in H.
    change (2 ^ Z.of_nat 0) with 1 in H. exact H.
  - assert (0 < 2 ^ Z.max 0 (max_retries self))
      by (apply Z.pow_pos_nonneg; lia).
    simpl. lia.
Qed.



(** X6. For a service built by [init], [health_check] reports
    api_configured as enabled, and status ready exactly when a token other
    than the empty one and the placeholder is set. *)
Theorem health_check_of_init (HF_API_TOKEN HF_MODEL : option str)
    (AGENT_MAX_RETRIES AGENT_TIMEOUT : Z) :
  let self := init HF_API_TOKEN HF_MODEL AGENT_MAX_RETRIES AGENT_TIMEOUT in
  let configured :=
    exists token, HF_API_TOKEN = Some token /\ token <> []
                  /\ token <> lit "your_huggingface_token_here" in
  (health_check self !! "enabled" = Some (PyBool true) <-> configured)
  /\ health_check self !! "api_configured" = health_check self !! "enabled"
  /\ (health_check self !! "status" = Some (PyStr (lit "ready")) <-> configured)
  /\ (health_check self !! "status" = Some (PyStr (lit "disabled"))
      <-> ~ configured).
Proof.
  cbv zeta. unfold health_check, init. cbn [enabled api_token model].
  set (token := default (lit "") HF_API_TOKEN).
  assert ((exists t, HF_API_TOKEN = Some t /\ t <> []
                     /\ t <> lit "your_huggingface_token_here")
          <-> (str_eqb token [] = false
               /\ str_eqb token (lit "your_huggingface_token_here") = false))
    as Hc.
  { unfold token. split.
    - intros (t & -> & H1 & H2). simpl. split.
      + destruct (str_eqb t []) eqn:E; [|reflexivity].
        now apply str_eqb_eq in E.
      + destruct (str_eqb t _) eqn:E; [|reflexivity].
        now apply str_eqb_eq in E.
    - intros [H1 H2]. destruct HF_API_TOKEN as [t|]; [|discriminate H1].
      exists t. simpl in *. repeat split.
      + intros ->. discriminate H1.
      + intros ->. discriminate H2. }
  rewrite Hc.
  destruct (str_eqb token []), (str_eqb token _); cbn [orb negb];
    simplify_map_eq; repeat split; intros; try discriminate; try reflexivity;
    try congruence; intuition congruence.
Qed.

Lemma isin_app_l kw (a b : str) : isin kw a = true -> isin kw (a ++ b) = true.
Proof.
  rewrite !isin_spec. intros (pre & post & ->).
  exists pre, (post ++ b). now rewrite <- !app_assoc.
Qed.

Lemma isin_app_r kw (a b : str) : isin kw b = true -> isin kw (a ++ b) = true.
Proof.
  rewrite !isin_spec. intros (pre & post & ->).
  exists (a ++ pre), post. now rewrite <- !app_assoc.
Qed.

Lemma lower_app (a b : str) : lower (a ++ b) = lower a ++ lower b.
Proof. apply map_app. Qed.

(** What a template says literally, its rendering says too. *)
Lemma format_mentions kw tmpl kwargs prompt :
  mentions kw tmpl = true ->
  format tmpl kwargs = Some prompt ->
  isin kw (lower prompt) = true.
Proof.
  revert prompt. induction tmpl as [|[s|name] rest IH]; intros prompt;
    cbn [mentions existsb format]; [discriminate| |].
  - intros Hm Hf. destruct (format rest kwargs) as [r|]; [|discriminate].
    injection Hf as <-. rewrite lower_app.
    apply orb_true_iff in Hm as [Hm | Hm].
    + now apply isin_app_l.
    + apply isin_app_r. now apply IH.
  - intros Hm Hf. cbn [orb] in Hm.
    destruct (kwargs !! name) as [v|]; [|discriminate].
    cbn [mbind option_bind] in Hf.
    destruct (format rest kwargs) as [r|]; [|discriminate].
    injection Hf as <-. rewrite lower_app. apply isin_app_r. now apply IH.
Qed.

(** Every prompt of the agent, for a qualification or for an email, has
    the word score in it. *)
Lemma qualification_prompt_mentions_score self lead_data prompt :
  qualification_prompt self lead_data = Some prompt ->
  isin (lit "score") (lower prompt) = true.
Proof.
  unfold qualification_prompt, get_qualification_prompt.
  destruct (str_eqb (variant self) (lit "B"));
    apply format_mentions; vm_compute; reflexivity.
Qed.

Lemma email_prompt_mentions_score self lead_data qualification_score prompt :
  email_prompt self lead_data qualification_score = Some prompt ->
  isin (lit "score") (lower prompt) = true.
Proof.
  unfold email_prompt, get_email_prompt.
  destruct (str_eqb (variant self) (lit "B"));
    apply format_mentions; vm_compute; reflexivity.
Qed.

Lemma generate_offline llm_service net prompt max_tokens temperature :
  offline llm_service net ->
  (generate llm_service net prompt max_tokens temperature).2
  = _fallback_response prompt.
Proof.
  intros [Hoff | Hnone]; unfold generate.
  - now rewrite Hoff.
  - destruct (enabled llm_service); cbn [negb]; [|reflexivity].
    now apply attempts_exhausted.
Qed.

Lemma _fallback_response_score prompt :
  isin (lit "score") (lower prompt) = true ->
  _fallback_response prompt = QUALIFICATION_FALLBACK.
Proof.
  intros H. unfold _fallback_response. rewrite H.
  now rewrite orb_true_r.
Qed.

(** X7. Over a service that cannot get a completion, [qualify_lead] parses
    the canned qualification text for every lead and variant: score 75,
    qualified, and never the rule-based result. *)
Theorem offline_qualification_is_canned (llm_service : service)
    (net : nat -> outcome) (variant now : str) (lead_data : lead) :
  offline llm_service net ->
  exists r,
    qualify_lead (new_agent llm_service net variant) now lead_data = Some r
    /\ r !! "score" = Some (PyInt 75)
    /\ r !! "qualified" = Some (PyBool true)
    /\ r !! "reasoning" = Some (PyStr (take 200 QUALIFICATION_FALLBACK))
    /\ is_Some (r !! "escalation_reason").
Proof.
  intros Hoff. unfold qualify_lead.
  destruct (qualification_prompt_is_Some (new_agent llm_service net variant)
              lead_data) as [prompt Hp].
  rewrite Hp. cbn [mbind option_bind llm new_agent].
  rewrite (generate_offline _ _ _ _ _ Hoff).
  rewrite (_fallback_response_score prompt)
    by (eapply qualification_prompt_mentions_score; eauto).
  change (falsy (Some QUALIFICATION_FALLBACK)) with false. cbv iota.
  change (_parse_qualification_response (default [] (Some QUALIFICATION_FALLBACK)))
    with (75, lit "QUALIFIED", take 200 QUALIFICATION_FALLBACK).
  cbv beta iota zeta.
  destruct (_check_escalation_rules lead_data (lit "QUALIFIED")
              (take 200 QUALIFICATION_FALLBACK)) as [escalated reason].
  eexists. split; [reflexivity|].
  simplify_map_eq. repeat split; eauto.
Qed.

(** X8. Over a service that cannot get a completion, [generate_email]
    returns the canned qualification text as the email, approved with the
    one warning that the subject is missing. *)
Theorem offline_email_is_the_qualification_answer (llm_service : service)
    (net : nat -> outcome) (variant now : str) (lead_data : lead)
    (qualification_score : Z) :
  offline llm_service net ->
  exists r,
    generate_email (new_agent llm_service net variant) now lead_data
      qualification_score = Some r
    /\ r !! "email_content" = Some (PyStr QUALIFICATION_FALLBACK)
    /\ r !! "governance_approved" = Some (PyBool true)
    /\ r !! "governance_issues" = Some (PyIssues [subject_issue])
    /\ r !! "escalated" = None.
Proof.
  intros Hoff. unfold generate_email.
  destruct (email_prompt_is_Some (new_agent llm_service net variant)
              lead_data qualification_score) as [prompt Hp].
  rewrite Hp. cbn [mbind option_bind llm new_agent].
  rewrite (generate_offline _ _ _ _ _ Hoff).
  rewrite (_fallback_response_score prompt)
    by (eapply email_prompt_mentions_score; eauto).
  change (falsy (Some QUALIFICATION_FALLBACK)) with false. cbv iota.
  change (_check_governance (default [] (Some QUALIFICATION_FALLBACK)))
    with (true, [subject_issue]).
  cbv beta iota zeta.
  eexists. split; [reflexivity|].
  cbn [negb]. simplify_map_eq. repeat split; eauto.
Qed.




(** X10. On the rule-based path the score is a multiple of ten from 50 to
    100 and a lead is disqualified exactly when no criterion holds. *)
Theorem rule_based_disqualifies_only_bare_leads (self : agent) (now : str)
    (lead_data : lead) :
  (forall prompt,
      qualification_prompt self lead_data = Some prompt ->
      falsy (llm self prompt 300 (3 # 10)%Q) = true) ->
  exists r score,
    qualify_lead self now lead_data = Some r
    /\ r !! "score" = Some (PyInt score)
    /\ In score [50; 60; 70; 80; 90; 100]
    /\ (r !! "qualified" = Some (PyBool false) <->
        ~ mid_size lead_data /\ ~ preferred_industry lead_data
        /\ ~ (present lead_data "contact_name"
              /\ present lead_data "contact_email")).
Proof.
  intros Hllm. unfold qualify_lead.
  destruct (qualification_prompt_is_Some self lead_data) as [prompt Hp].
  rewrite Hp. cbn [mbind option_bind]. rewrite (Hllm prompt Hp).
  destruct (_fallback_qualification_score self now lead_data)
    as (b1 & b2 & b3 & B1 & B2 & B3 & ->).
  eexists. exists (50 + b1 + b2 + b3). split; [reflexivity|].
  simplify_map_eq. split; [reflexivity|].
  destruct B1 as [[P1 ->] | [P1 ->]], B2 as [[P2 ->] | [P2 ->]],
    B3 as [[P3 ->] | [P3 ->]]; (split; [simpl; tauto|]);
    cbn; split; intros H; try discriminate H; tauto.
Qed.



Lemma contains_any_case_app_l kw (a b : str) :
  contains_any_case kw a -> contains_any_case kw (a ++ b).
Proof.
  intros (pre & w & post & -> & Hw).
  exists pre, w, (post ++ b). split; [|exact Hw].
  now rewrite <- !app_assoc.
Qed.

Lemma contains_any_case_app_r kw (a b : str) :
  contains_any_case kw b -> contains_any_case kw (a ++ b).
Proof.
  intros (pre & w & post & -> & Hw).
  exists (a ++ pre), w, post. split; [|exact Hw].
  now rewrite <- !app_assoc.
Qed.

(** What the fallback email prints of the lead occurs in it. *)
Lemma _fallback_email_prints lead_data kw :
  contains_any_case kw
    (str_of (get lead_data "company_name" (Some (lit "your company"))))
  \/ contains_any_case kw
       (str_of (get lead_data "contact_name" (Some (lit "there"))))
  \/ contains_any_case kw
       (str_of (get lead_data "industry" (Some (lit "your industry")))) ->
  contains_any_case kw (_fallback_email lead_data).
Proof.
  unfold _fallback_email. cbv zeta.
  intros [H | [H | H]].
  - apply contains_any_case_app_r. now apply contains_any_case_app_l.
  - do 3 apply contains_any_case_app_r. now apply contains_any_case_app_l.
  - do 7 apply contains_any_case_app_r. now apply contains_any_case_app_l.
Qed.

Lemma _fallback_email_has_subject lead_data :
  isin (lit "subject:") (lower (_fallback_email lead_data)) = true.
Proof.
  unfold _fallback_email. cbv zeta. rewrite lower_app.
  apply isin_app_l. vm_compute. reflexivity.
Qed.

Lemma lookup_flagged (b : bool) (m : gmap string pyval) (k : string) :
  k <> "escalated" ->
  (if b then <["escalated" := PyBool true]> m else m) !! k = m !! k.
Proof. intros Hk. destruct b; [|reflexivity]. now apply lookup_insert_ne. Qed.

(** X11. When the oracle gives no email, the agent's template goes through
    governance: it never lacks a subject, and a pricing keyword in what it
    prints of the lead blocks it and escalates the result. *)
Theorem fallback_email_is_screened (self : agent) (now : str)
    (lead_data : lead) (qualification_score : Z) :
  (forall prompt,
      email_prompt self lead_data qualification_score = Some prompt ->
      falsy (llm self prompt 400 (7 # 10)%Q) = true) ->
  exists r issues,
    generate_email self now lead_data qualification_score = Some r
    /\ r !! "email_content" = Some (PyStr (_fallback_email lead_data))
    /\ r !! "governance_issues" = Some (PyIssues issues)
    /\ ~ In subject_issue issues
    /\ (forall kw,
          In kw pricing_keywords ->
          contains_any_case kw
            (str_of (get lead_data "company_name" (Some (lit "your company"))))
          \/ contains_any_case kw
               (str_of (get lead_data "contact_name" (Some (lit "there"))))
          \/ contains_any_case kw
               (str_of (get lead_data "industry" (Some (lit "your industry")))) ->
          r !! "governance_approved" = Some (PyBool false)
          /\ r !! "escalated" = Some (PyBool true)).
Proof.
  intros Hllm. unfold generate_email.
  destruct (email_prompt_is_Some self lead_data qualification_score)
    as [prompt Hp].
  rewrite Hp. cbn [mbind option_bind]. rewrite (Hllm prompt Hp). cbv iota.
  rewrite _check_governance_issues. cbv zeta.
  rewrite _fallback_email_has_subject, app_nil_r.
  set (email := _fallback_email lead_data).
  set (pricing := existsb (fun keyword => isin keyword (lower email))
                    pricing_keywords).
  set (long := (1000 <? length email)%nat).
  set (issues := (if pricing then [pricing_issue] else [])
                 ++ (if long then [length_issue] else [])).
  eexists. exists issues. split; [reflexivity|].
  rewrite !lookup_flagged by done.
  split; [reflexivity|]. split; [reflexivity|]. split.
  - intros Hin. apply in_app_or in Hin as [Hin | Hin].
    + destruct pricing; [destruct Hin as [E | []]; discriminate E | destruct Hin].
    + destruct long; [destruct Hin as [E | []]; discriminate E | destruct Hin].
  - intros kw Hkw Hc.
    assert (pricing = true) as ->.
    { apply pricing_found. exists kw. split; [exact Hkw|].
      now apply _fallback_email_prints. }
    split; [reflexivity|]. cbn [negb]. apply lookup_insert_eq.
Qed.



(** X3 on a sample input. *)
Lemma exhausted_retries_fall_back_witness :
  (generate (init (Some (lit "hf_token")) None 3 30) (fun _ => RaisesTimeout)
     (lit "Write an email") 400 (7 # 10)%Q).2 = EMAIL_FALLBACK
  /\ requests
       (generate (init (Some (lit "hf_token")) None 3 30)
          (fun _ => RaisesTimeout) (lit "Write an email") 400 (7 # 10)%Q).1
     = 3%nat.
Proof.
  pose proof (exhausted_retries_fall_back
                (init (Some (lit "hf_token")) None 3 30)
                (fun _ => RaisesTimeout) (lit "Write an email") 400
                (7 # 10)%Q eq_refl) as H.
  destruct (generate _ _ _ _ _) as [trace text].
  destruct H as (Ht & _ & Hr); [intros j c _; discriminate|].
  split; [rewrite Ht; reflexivity | exact Hr].
Defined.

(** X7 on a sample input. *)
Lemma offline_qualification_is_canned_witness :
  exists r,
    qualify_lead (new_agent (init None None 3 30) warming_up (lit "B"))
      (lit "2024-05-01T10:00:00") jane = Some r
    /\ r !! "score" = Some (PyInt 75)
    /\ r !! "qualified" = Some (PyBool true)
    /\ r !! "reasoning" = Some (PyStr (take 200 QUALIFICATION_FALLBACK))
    /\ is_Some (r !! "escalation_reason").
Proof.
  apply offline_qualification_is_canned. left. reflexivity.
Defined.

(** X8 on a sample input. *)
Lemma offline_email_is_the_qualification_answer_witness :
  exists r,
    generate_email (new_agent (init None None 3 30) warming_up (lit "A"))
      (lit "2024-05-01T10:00:00") jane 75 = Some r
    /\ r !! "email_content" = Some (PyStr QUALIFICATION_FALLBACK)
    /\ r !! "governance_approved" = Some (PyBool true)
    /\ r !! "governance_issues" = Some (PyIssues [subject_issue])
    /\ r !! "escalated" = None.
Proof.
  apply offline_email_is_the_qualification_answer. left. reflexivity.
Defined.

(** X10 on a sample input. *)
Lemma rule_based_disqualifies_only_bare_leads_witness :
  exists r score,
    qualify_lead (Agent (lit "A") (stub (Some [])))
      (lit "2024-05-01T10:00:00") costco = Some r
    /\ r !! "score" = Some (PyInt score)
    /\ In score [50; 60; 70; 80; 90; 100]
    /\ (r !! "qualified" = Some (PyBool false) <->
        ~ mid_size costco /\ ~ preferred_industry costco
        /\ ~ (present costco "contact_name"
              /\ present costco "contact_email")).
Proof.
  apply rule_based_disqualifies_only_bare_leads.
  intros prompt _. reflexivity.
Defined.

(** X11 on a sample input. *)
Lemma fallback_email_is_screened_witness :
  exists r,
    generate_email (Agent (lit "A") (stub None))
      (lit "2024-05-01T10:00:00") costco 80 = Some r
    /\ r !! "governance_approved" = Some (PyBool false)
    /\ r !! "escalated" = Some (PyBool true).
Proof.
  destruct (fallback_email_is_screened (Agent (lit "A") (stub None))
              (lit "2024-05-01T10:00:00") costco 80)
    as (r & issues & Hr & _ & _ & _ & Hkw).
  - intros prompt _. reflexivity.
  - exists r. split; [exact Hr|].
    apply (Hkw (lit "cost")).
    + do 2 right. now left.
    + left. exists [], (lit "Cost"), (lit "co Wholesale"). split; reflexivity.
Defined.
